(** * ReciprocalGraphicalModels: the exported sampler bindings

    A shallow embedding of [src/RcppExports.cpp]: the four [.Call] entry points
    [_ReciprocalGraphicalModels_Generate_{Rho,Psi,Eta,Tau}_c], the registration
    table [CallEntries] and [R_init_ReciprocalGraphicalModels].

    The file declares the four native routines ([Generate_Rho_c], ...) and does
    not define them.  The entry points are therefore embedded over an arbitrary
    implementation of the declared signatures (class [Native]); the routines'
    bodies, where a property needs them, are modelled from the specification in
    module [SpecModel]. *)

From Stdlib Require Import List Bool Arith Lia String Floats.
Import ListNotations.

Local Open Scope float_scope.
Local Open Scope nat_scope.

(** ** Native data *)

(** C++ [double]: IEEE 754 binary64. *)
Definition double := float.
Bind Scope float_scope with double.

(** [arma::mat]: a dense matrix of doubles stored column by column. *)
Record mat := mkMat {
  n_rows : nat;
  n_cols : nat;
  mem : list double
}.

(** ** Exceptions *)

(** The three failure conditions the specification names for a sampler. *)
Inductive failure :=
| InvalidHyperparameter
| NumericalDegeneracy
| DimensionMismatch.

(** What can be thrown inside an entry point: an exception of the marshalling
    layer ([Rcpp::not_compatible], [Rcpp::not_a_matrix], ...), or whatever the
    native routine throws. *)
Inductive exception :=
| Rcpp_exception (what : string)
| sampler_failure (f : failure).

(** ** The interfaces the file is compiled against *)

(** Argument unboxing and result boxing, from [Rcpp.h] and [RcppArmadillo.h].
    [RObject] is what a [SEXP] points to. *)
Class Marshalling := {
  RObject : Type;
  R_NilValue : RObject;
  (** [Rcpp::as<double>] *)
  as_double : RObject -> exception + double;
  (** [Rcpp::as<arma::mat>], used for a [const arma::mat&] parameter *)
  as_mat : RObject -> exception + mat;
  (** [Rcpp::wrap] of a [double] *)
  wrap : double -> RObject
}.

(** The result of running a native routine from generator state [g]: the
    double it returns or the exception it throws, and the generator state it
    leaves. *)
Definition native_result (G : Type) : Type := ((exception + double) * G)%type.

(** Lines 15, 29, 43 and 58: the declarations of the four native routines.  The
    matrix is received by const reference and the scalars by value, so a routine
    reads its arguments and updates nothing but the generator it draws from. *)
Class Native (G : Type) := {
  Generate_Rho_c : mat -> double -> double -> double -> G -> native_result G;
  Generate_Psi_c : mat -> double -> double -> double -> G -> native_result G;
  Generate_Eta_c : double -> double -> double -> double -> double -> G -> native_result G;
  Generate_Tau_c : double -> double -> double -> double -> double -> G -> native_result G
}.

(** ** The host process *)

(** A [SEXP] is the address of an object of the host's heap. *)
Definition SEXP := nat.

Section Host.
Context {G : Type} {M : Marshalling}.

(** The state of the host process that an entry point can reach:
    [Random_seed] is the host's generator state ([.Random.seed]), [rng_state]
    the copy the native code draws from, [heap] the host's objects. *)
Record World := mkWorld {
  Random_seed : G;
  rng_state : G;
  heap : list RObject
}.

(** The object a [SEXP] points to. *)
Definition deref (w : World) (s : SEXP) : RObject := nth s (heap w) R_NilValue.

(** C++ code that runs in the host process and may throw. *)
Definition Cpp (A : Type) : Type := World -> (exception + A) * World.

Definition ret {A} (a : A) : Cpp A := fun w => (inr a, w).

Definition bind {A B} (m : Cpp A) (k : A -> Cpp B) : Cpp B :=
  fun w =>
    match m w with
    | (inl e, w') => (inl e, w')
    | (inr a, w') => k a w'
    end.

(** [Rcpp::traits::input_parameter<double>::type x(xSEXP)].  The conversion is
    embedded where the parameter is declared, so the conversions of one entry
    point run in the order of its declarations. *)
Definition input_parameter_double (s : SEXP) : Cpp double :=
  fun w => (as_double (deref w s), w).

(** [Rcpp::traits::input_parameter<const arma::mat&>::type X(XSEXP)] *)
Definition input_parameter_mat (s : SEXP) : Cpp mat :=
  fun w => (as_mat (deref w s), w).

(** [Rcpp::wrap(x)]: a fresh host object holding [x]. *)
Definition Rcpp_wrap (x : double) : Cpp SEXP :=
  fun w => (inr (List.length (heap w)),
            mkWorld (Random_seed w) (rng_state w) (heap w ++ [wrap x])).

(** A call of a native routine: it draws from [rng_state]. *)
Definition call (f : G -> native_result G) : Cpp double :=
  fun w => let (r, g) := f (rng_state w) in
           (r, mkWorld (Random_seed w) g (heap w)).

(** [GetRNGstate()] and [PutRNGstate()] of the host's API. *)
Definition GetRNGstate (w : World) : World :=
  mkWorld (Random_seed w) (Random_seed w) (heap w).

Definition PutRNGstate (w : World) : World :=
  mkWorld (rng_state w) (rng_state w) (heap w).

(** [Rcpp::RNGScope rcpp_rngScope_gen;]: the constructor reads the host's
    generator state, the destructor writes it back when the block is left, by
    [return] or by an exception. *)
Definition RNGScope {A} (block : Cpp A) : Cpp A :=
  fun w => let (r, w') := block (GetRNGstate w) in (r, PutRNGstate w').

(** An error condition signalled to the host ([stop(cond)]). *)
Inductive condition :=
| r_condition (e : exception).

(** What a [.Call] gives the host: the returned [SEXP] or an error. *)
Definition RCall : Type := World -> (condition + SEXP) * World.

(** [BEGIN_RCPP ... END_RCPP]: the body runs in a [try] block; an exception
    that leaves it is caught, turned into a condition and signalled. *)
Definition BEGIN_RCPP_END_RCPP (body : Cpp SEXP) : RCall :=
  fun w =>
    match body w with
    | (inl e, w') => (inl (r_condition e), w')
    | (inr s, w') => (inr s, w')
    end.

End Host.

Arguments World G {M}.
Arguments Cpp G {M} A.
Arguments RCall G {M}.

Declare Scope cpp_scope.
Delimit Scope cpp_scope with cpp.
Notation "x <- m ;; k" := (bind m (fun x => k))
  (at level 61, m at next level, right associativity) : cpp_scope.

(** ** The entry points (lines 14-71) *)

Section EntryPoints.
Context {G : Type} {M : Marshalling} {N : Native G}.
Local Open Scope cpp_scope.

Definition _ReciprocalGraphicalModels_Generate_Rho_c
  (GammaSEXP pSEXP a_rhoSEXP b_rhoSEXP : SEXP) : RCall G :=
  BEGIN_RCPP_END_RCPP (
    RNGScope (
      Gamma <- input_parameter_mat GammaSEXP ;;
      p <- input_parameter_double pSEXP ;;
      a_rho <- input_parameter_double a_rhoSEXP ;;
      b_rho <- input_parameter_double b_rhoSEXP ;;
      x <- call (Generate_Rho_c Gamma p a_rho b_rho) ;;
      rcpp_result_gen <- Rcpp_wrap x ;;
      ret rcpp_result_gen)).

Definition _ReciprocalGraphicalModels_Generate_Psi_c
  (PhiSEXP dSEXP a_psiSEXP b_psiSEXP : SEXP) : RCall G :=
  BEGIN_RCPP_END_RCPP (
    RNGScope (
      Phi <- input_parameter_mat PhiSEXP ;;
      d <- input_parameter_double dSEXP ;;
      a_psi <- input_parameter_double a_psiSEXP ;;
      b_psi <- input_parameter_double b_psiSEXP ;;
      x <- call (Generate_Psi_c Phi d a_psi b_psi) ;;
      rcpp_result_gen <- Rcpp_wrap x ;;
      ret rcpp_result_gen)).

Definition _ReciprocalGraphicalModels_Generate_Eta_c
  (bSEXP phiSEXP a_etaSEXP b_etaSEXP nu_2SEXP : SEXP) : RCall G :=
  BEGIN_RCPP_END_RCPP (
    RNGScope (
      b <- input_parameter_double bSEXP ;;
      phi <- input_parameter_double phiSEXP ;;
      a_eta <- input_parameter_double a_etaSEXP ;;
      b_eta <- input_parameter_double b_etaSEXP ;;
      nu_2 <- input_parameter_double nu_2SEXP ;;
      x <- call (Generate_Eta_c b phi a_eta b_eta nu_2) ;;
      rcpp_result_gen <- Rcpp_wrap x ;;
      ret rcpp_result_gen)).

Definition _ReciprocalGraphicalModels_Generate_Tau_c
  (aSEXP gammaSEXP a_tauSEXP b_tauSEXP nu_1SEXP : SEXP) : RCall G :=
  BEGIN_RCPP_END_RCPP (
    RNGScope (
      a <- input_parameter_double aSEXP ;;
      gamma <- input_parameter_double gammaSEXP ;;
      a_tau <- input_parameter_double a_tauSEXP ;;
      b_tau <- input_parameter_double b_tauSEXP ;;
      nu_1 <- input_parameter_double nu_1SEXP ;;
      x <- call (Generate_Tau_c a gamma a_tau b_tau nu_1) ;;
      rcpp_result_gen <- Rcpp_wrap x ;;
      ret rcpp_result_gen)).

End EntryPoints.

(** ** Registration (lines 73-84) and dispatch *)

Section Registration.
Context {G : Type} {M : Marshalling} {N : Native G}.

(** [DL_FUNC]: a routine's address; the cast drops the number of parameters,
    which the embedding keeps. *)
Inductive DL_FUNC :=
| DL_FUNC_4 (f : SEXP -> SEXP -> SEXP -> SEXP -> RCall G)
| DL_FUNC_5 (f : SEXP -> SEXP -> SEXP -> SEXP -> SEXP -> RCall G).

Record R_CallMethodDef := mkCallMethodDef {
  name : string;
  fun_ : DL_FUNC;
  numArgs : nat
}.

(** The table; the [{NULL, NULL, 0}] entry that ends the C array is the end of
    the list. *)
Definition CallEntries : list R_CallMethodDef :=
  [ mkCallMethodDef "_ReciprocalGraphicalModels_Generate_Rho_c"
      (DL_FUNC_4 _ReciprocalGraphicalModels_Generate_Rho_c) 4;
    mkCallMethodDef "_ReciprocalGraphicalModels_Generate_Psi_c"
      (DL_FUNC_4 _ReciprocalGraphicalModels_Generate_Psi_c) 4;
    mkCallMethodDef "_ReciprocalGraphicalModels_Generate_Eta_c"
      (DL_FUNC_5 _ReciprocalGraphicalModels_Generate_Eta_c) 5;
    mkCallMethodDef "_ReciprocalGraphicalModels_Generate_Tau_c"
      (DL_FUNC_5 _ReciprocalGraphicalModels_Generate_Tau_c) 5 ].

(** What the host records of a loaded library. *)
Record DllInfo := mkDllInfo {
  CallRoutines : list R_CallMethodDef;
  useDynamicSymbols : bool
}.

(** [R_registerRoutines(dll, NULL, callRoutines, NULL, NULL)]: the [.C],
    [.Fortran] and [.External] tables, which line 82 passes as [NULL], are left
    out. *)
Definition R_registerRoutines (dll : DllInfo) (callRoutines : list R_CallMethodDef)
  : DllInfo :=
  mkDllInfo callRoutines (useDynamicSymbols dll).

Definition R_useDynamicSymbols (dll : DllInfo) (value : bool) : DllInfo :=
  mkDllInfo (CallRoutines dll) value.

Definition R_init_ReciprocalGraphicalModels (dll : DllInfo) : DllInfo :=
  R_useDynamicSymbols (R_registerRoutines dll CallEntries) false.

(** The host passes a routine as many arguments as the table says; a routine
    of another arity would be called with the wrong frame ([None]). *)
Definition invoke (f : DL_FUNC) (args : list SEXP) : option (RCall G) :=
  match f, args with
  | DL_FUNC_4 f, [a1; a2; a3; a4] => Some (f a1 a2 a3 a4)
  | DL_FUNC_5 f, [a1; a2; a3; a4; a5] => Some (f a1 a2 a3 a4 a5)
  | _, _ => None
  end.

(** [.Call(name, args...)]: the name is looked up in the registered table and
    the number of arguments checked against it; [None] when no routine runs (the
    host refuses the call; a name outside the table is not searched for, the
    library's dynamic lookup being off after line 83). *)
Definition dotCall (dll : DllInfo) (nm : string) (args : list SEXP) (w : World G)
  : option ((condition + SEXP) * World G) :=
  match find (fun e => String.eqb (name e) nm) (CallRoutines dll) with
  | Some e =>
      if numArgs e =? List.length args
      then option_map (fun c => c w) (invoke (fun_ e) args)
      else None
  | None => None
  end.

End Registration.

(** ** An entry point as a composition: unbox, apply, box *)

Section Composition.
Context {G : Type} {M : Marshalling} {N : Native G}.

(** Unboxing of four (five) arguments, left to right, and the native routine
    applied to the unboxed values in the same order; the exception of the first
    conversion that fails otherwise. *)
Definition unbox4 {A B C D : Type}
  (ua : RObject -> exception + A) (ub : RObject -> exception + B)
  (uc : RObject -> exception + C) (ud : RObject -> exception + D)
  (f : A -> B -> C -> D -> G -> native_result G)
  (oa ob oc od : RObject) : exception + (G -> native_result G) :=
  match ua oa with
  | inl e => inl e
  | inr a =>
    match ub ob with
    | inl e => inl e
    | inr b =>
      match uc oc with
      | inl e => inl e
      | inr c =>
        match ud od with
        | inl e => inl e
        | inr d => inr (f a b c d)
        end
      end
    end
  end.

Definition unbox5 {A B C D E : Type}
  (ua : RObject -> exception + A) (ub : RObject -> exception + B)
  (uc : RObject -> exception + C) (ud : RObject -> exception + D)
  (ue : RObject -> exception + E)
  (f : A -> B -> C -> D -> E -> G -> native_result G)
  (oa ob oc od oe : RObject) : exception + (G -> native_result G) :=
  match ua oa with
  | inl e => inl e
  | inr a => unbox4 ub uc ud ue (f a) ob oc od oe
  end.

(** The four exported routines by name: the arguments each takes and the
    native routine it stands for. *)
Definition exported (nm : string) (objs : list RObject)
  : option (exception + (G -> native_result G)) :=
  match objs with
  | [o1; o2; o3; o4] =>
      if String.eqb "_ReciprocalGraphicalModels_Generate_Rho_c" nm
      then Some (unbox4 as_mat as_double as_double as_double Generate_Rho_c o1 o2 o3 o4)
      else if String.eqb "_ReciprocalGraphicalModels_Generate_Psi_c" nm
      then Some (unbox4 as_mat as_double as_double as_double Generate_Psi_c o1 o2 o3 o4)
      else None
  | [o1; o2; o3; o4; o5] =>
      if String.eqb "_ReciprocalGraphicalModels_Generate_Eta_c" nm
      then Some (unbox5 as_double as_double as_double as_double as_double
                   Generate_Eta_c o1 o2 o3 o4 o5)
      else if String.eqb "_ReciprocalGraphicalModels_Generate_Tau_c" nm
      then Some (unbox5 as_double as_double as_double as_double as_double
                   Generate_Tau_c o1 o2 o3 o4 o5)
      else None
  | _ => None
  end.

(** What the unboxed call yields from generator state [g]: the exception of a
    conversion or of the routine, or the routine's double. *)
Definition attempt (u : exception + (G -> native_result G)) (g : G)
  : exception + double :=
  match u with
  | inl e => inl e
  | inr f => fst (f g)
  end.

(** Unboxing, the native routine on the host's generator state, boxing of its
    result; every exception becomes the host's error. *)
Definition composed (u : exception + (G -> native_result G)) (w : World G)
  : (condition + SEXP) * World G :=
  match u with
  | inl e => (inl (r_condition e), mkWorld (Random_seed w) (Random_seed w) (heap w))
  | inr f =>
    match f (Random_seed w) with
    | (inl e, g) => (inl (r_condition e), mkWorld g g (heap w))
    | (inr x, g) => (inr (List.length (heap w)), mkWorld g g (heap w ++ [wrap x]))
    end
  end.

(** What the host can see of a call: the error or the object returned, and the
    host's generator state after it. *)
Definition observation (o : option ((condition + SEXP) * World G))
  : option ((condition + RObject) * G) :=
  match o with
  | Some (inl c, w') => Some (inl c, Random_seed w')
  | Some (inr s, w') => Some (inr (deref w' s), Random_seed w')
  | None => None
  end.

End Composition.

(** ** The samplers, from the specification *)

(** The variates the random source supplies to the samplers (section 5),
    with their parameters. *)
Inductive distribution :=
| Beta (shape1 shape2 : double)
| Gamma (shape rate : double).

(** A shape or rate that the error taxonomy rejects: [<= 0] or non-finite. *)
Definition degenerate (x : double) : bool :=
  (x <=? 0)%float || negb (is_finite x).

Definition well_formed (d : distribution) : bool :=
  match d with
  | Beta a b => negb (degenerate a) && negb (degenerate b)
  | Gamma a r => negb (degenerate a) && negb (degenerate r)
  end.

(** The interval [[0,1]]. *)
Definition in_unit (x : double) : bool := ((0 <=? x) && (x <=? 1))%float.

(** Modelled from the spec: the shared random source the samplers draw from,
    which the host owns (section 5: an injected dependency, a stream of
    variates).  [sample d g] is one variate of [d] at generator state [g] and
    the state after it; [draws] counts the draws a state has behind it.  A beta
    variate of well-formed shapes lies in [[0,1]]; of a gamma variate nothing is
    assumed. *)
Class EntropySource (G : Type) := {
  draws : G -> nat;
  sample : distribution -> G -> double * G;
  sample_draws : forall d g, draws (snd (sample d g)) = S (draws g);
  sample_beta_unit : forall a b g,
    well_formed (Beta a b) = true -> in_unit (fst (sample (Beta a b) g)) = true
}.

(** Modelled from the spec: what the specification leaves open of the sampler
    bodies (section 9, open question): when a matrix is consistent with the
    declared dimension, and the posterior shape and rate of the two scale
    samplers as functions of their five arguments. *)
Class Posterior := {
  consistent : mat -> double -> bool;
  Eta_shape : double -> double -> double -> double -> double -> double;
  Eta_rate : double -> double -> double -> double -> double -> double;
  Tau_shape : double -> double -> double -> double -> double -> double;
  Tau_rate : double -> double -> double -> double -> double -> double
}.

Module SpecModel.
Section Samplers.
Context {G : Type} {E : EntropySource G} {P : Posterior}.

(** Modelled from the spec: [k], the count of indicated edges, the entries of
    the indicator matrix that are not zero (section 4.1). *)
Definition edge_count (X : mat) : double :=
  fold_left (fun k x => if (x =? 0)%float then k else (k + 1)%float) (mem X) 0%float.

(** Modelled from the spec: the posterior of an inclusion probability
    (sections 4.1, 4.2 and 7): Beta with shapes [a + k] and
    [b + (dim*(dim-1) - k)]; InvalidHyperparameter when [a] or [b] is [<= 0] or
    non-finite, DimensionMismatch when the matrix is inconsistent with [dim],
    NumericalDegeneracy when a computed shape is [<= 0] or non-finite. *)
Definition count_posterior (X : mat) (dim a b : double) : failure + distribution :=
  if degenerate a || degenerate b then inl InvalidHyperparameter
  else if negb (consistent X dim) then inl DimensionMismatch
  else
    let k := edge_count X in
    let d := Beta (a + k)%float (b + (dim * (dim - 1) - k))%float in
    if well_formed d then inr d else inl NumericalDegeneracy.

(** Modelled from the spec: the full conditional of a local scale (sections
    4.3, 4.4 and 7) is inverse gamma with the computed shape and rate, so the
    scale is the reciprocal of a gamma variate with that shape and rate;
    InvalidHyperparameter when [a] or [b] is [<= 0] or non-finite,
    NumericalDegeneracy when a computed parameter is. *)
Definition scale_posterior (shape rate a b : double) : failure + distribution :=
  if degenerate a || degenerate b then inl InvalidHyperparameter
  else
    let d := Gamma shape rate in
    if well_formed d then inr d else inl NumericalDegeneracy.

(** Modelled from the spec: a sampler fails without drawing, or returns one
    draw from its posterior and leaves the generator one draw further. *)
Definition draw_from (post : failure + distribution) (g : G) : native_result G :=
  match post with
  | inl f => (inl (sampler_failure f), g)
  | inr d => let (x, g') := sample d g in (inr x, g')
  end.

(** Modelled from the spec: a scale sampler fails without drawing, or draws
    one gamma variate and returns its reciprocal, a binary64 division. *)
Definition draw_scale_from (post : failure + distribution) (g : G) : native_result G :=
  match draw_from post g with
  | (inr y, g') => (inr (1 / y)%float, g')
  | (inl e, g') => (inl e, g')
  end.

(** Modelled from the spec: the distribution each routine draws from. *)
Definition Rho_posterior (Gamma : mat) (p a_rho b_rho : double) :=
  count_posterior Gamma p a_rho b_rho.

Definition Psi_posterior (Phi : mat) (d a_psi b_psi : double) :=
  count_posterior Phi d a_psi b_psi.

Definition Eta_posterior (b phi a_eta b_eta nu_2 : double) :=
  scale_posterior (Eta_shape b phi a_eta b_eta nu_2) (Eta_rate b phi a_eta b_eta nu_2)
    a_eta b_eta.

Definition Tau_posterior (a gamma a_tau b_tau nu_1 : double) :=
  scale_posterior (Tau_shape a gamma a_tau b_tau nu_1) (Tau_rate a gamma a_tau b_tau nu_1)
    a_tau b_tau.

(** Modelled from the spec: the bodies of the four routines that
    [RcppExports.cpp] declares (sections 4.1 to 4.4). *)
Definition Generate_Rho_c (Gamma : mat) (p a_rho b_rho : double) (g : G)
  : native_result G :=
  draw_from (Rho_posterior Gamma p a_rho b_rho) g.

Definition Generate_Psi_c (Phi : mat) (d a_psi b_psi : double) (g : G)
  : native_result G :=
  draw_from (Psi_posterior Phi d a_psi b_psi) g.

Definition Generate_Eta_c (b phi a_eta b_eta nu_2 : double) (g : G)
  : native_result G :=
  draw_scale_from (Eta_posterior b phi a_eta b_eta nu_2) g.

Definition Generate_Tau_c (a gamma a_tau b_tau nu_1 : double) (g : G)
  : native_result G :=
  draw_scale_from (Tau_posterior a gamma a_tau b_tau nu_1) g.

(** The four routines as an implementation of the declarations. *)
Definition native : Native G :=
  Build_Native G Generate_Rho_c Generate_Psi_c Generate_Eta_c Generate_Tau_c.

End Samplers.
End SpecModel.

(** ** A small host, generator and posterior to run the code on *)

Module Reference.

(** Host objects: [NULL], a numeric vector with its [dim] attribute if it has
    one, a character vector. *)
Inductive RValue :=
| RNull
| RNumeric (v : list double) (dim : option (nat * nat))
| RCharacter (v : list string).

(** [as<double>]: a vector of length one that is numeric. *)
Definition value_as_double (o : RValue) : exception + double :=
  match o with
  | RNumeric [x] _ => inr x
  | RCharacter [_] => inl (Rcpp_exception "Not compatible with requested type")
  | _ => inl (Rcpp_exception "Expecting a single value")
  end.

(** [as<arma::mat>]: a numeric vector with a [dim] attribute. *)
Definition value_as_mat (o : RValue) : exception + mat :=
  match o with
  | RNumeric v (Some (r, c)) => inr (mkMat r c v)
  | RNumeric _ None => inl (Rcpp_exception "not a matrix")
  | _ => inl (Rcpp_exception "Not compatible with requested type")
  end.

Definition marshalling : Marshalling :=
  {| RObject := RValue;
     R_NilValue := RNull;
     as_double := value_as_double;
     as_mat := value_as_mat;
     wrap := fun x => RNumeric [x] None |}.

(** A generator that replays a fixed cycle of variates; its state is the
    number of draws made. *)
Definition replay (d : distribution) (n : nat) : double * nat :=
  (match d with
   | Beta _ _ => nth (n mod 4) [0.5; 0.25; 0.875; 1]%float 0.5%float
   | Gamma _ _ => nth (n mod 4) [1; 0.5; 2.5; 4]%float 1%float
   end, S n).

Definition entropy : EntropySource nat.
Proof.
  refine {| draws := fun n => n; sample := replay |}.
  - reflexivity.
  - intros a b n _. unfold replay, fst. generalize (n mod 4). intros i.
    destruct i as [|[|[|[|[|k]]]]]; reflexivity.
Defined.

(** [n] as a double. *)
Definition double_of_nat (n : nat) : double :=
  Nat.iter n (fun x => (x + 1)%float) 0%float.

(** One instance of what the specification leaves open: a matrix is
    consistent with a dimension when it is square of that order; a scale
    posterior has the prior shape plus [nu] and the prior rate plus the size of
    the coefficient over the global scale. *)
Definition posterior : Posterior :=
  {| consistent := fun X dim =>
       (n_rows X =? n_cols X) && (List.length (mem X) =? n_rows X * n_cols X)
       && (double_of_nat (n_rows X) =? dim)%float;
     Eta_shape := fun b phi a_eta b_eta nu_2 => (a_eta + nu_2)%float;
     Eta_rate := fun b phi a_eta b_eta nu_2 => (b_eta + abs b / phi)%float;
     Tau_shape := fun a gamma a_tau b_tau nu_1 => (a_tau + nu_1)%float;
     Tau_rate := fun a gamma a_tau b_tau nu_1 => (b_tau + abs a / gamma)%float |}.

(** The specification's samplers on this generator and posterior. *)
Definition native : Native nat := @SpecModel.native nat entropy posterior.

(** The [n] by [n] matrix of zeros. *)
Definition zeros (n : nat) : mat := mkMat n n (repeat 0%float (n * n)).

(** A world whose heap holds a 2 by 2 matrix of zeros and the doubles 2, 1
    and 0, with the native generator copy out of step with the host's. *)
Definition world : World nat (M := marshalling) :=
  mkWorld (M := marshalling) 7 3
    [ RNumeric [0; 0; 0; 0]%float (Some (2, 2));
      RNumeric [2%float] None;
      RNumeric [1%float] None;
      RNumeric [0%float] None ].

(** The same arguments at the same addresses, in a world that differs in its
    native generator copy and in the rest of its heap. *)
Definition other_world : World nat (M := marshalling) :=
  mkWorld (M := marshalling) 7 5
    [ RNumeric [0; 0; 0; 0]%float (Some (2, 2));
      RNumeric [2%float] None;
      RNumeric [1%float] None;
      RNumeric [0%float] None;
      RCharacter ["seed"%string] ].

(** The library once loaded with these samplers. *)
Definition dll : DllInfo (G := nat) (M := marshalling) :=
  R_init_ReciprocalGraphicalModels (N := native) (mkDllInfo [] true).


(** Native routines that return their first scalar argument and draw nothing. *)
Definition echo : Native nat :=
  Build_Native nat
    (fun _ p _ _ g => (inr p, g)) (fun _ d _ _ g => (inr d, g))
    (fun b _ _ _ _ g => (inr b, g)) (fun a _ _ _ _ g => (inr a, g)).

End Reference.

(** * Properties of the entry points and of the registration *)

Section EntryPointFacts.
Context {G : Type} {M : Marshalling} {N : Native G}.

Lemma deref_GetRNGstate (w : World G) (s : SEXP) :
  deref (GetRNGstate w) s = deref w s.
Proof. reflexivity. Qed.

(** Runs an entry point symbolically: every conversion and the native call is
    split into its two outcomes. *)
Ltac run_entry :=
  unfold BEGIN_RCPP_END_RCPP, RNGScope, bind, ret, input_parameter_mat,
    input_parameter_double, call, Rcpp_wrap, composed, unbox5, unbox4;
  rewrite ?deref_GetRNGstate; cbn [GetRNGstate heap rng_state Random_seed];
  repeat match goal with
         | |- context [as_mat ?o] => destruct (as_mat o); cbn
         | |- context [as_double ?o] => destruct (as_double o); cbn
         end;
  try reflexivity;
  match goal with
  | |- context [let (_, _) := ?r in _] => destruct r as [[?|?] ?]; reflexivity
  end.

Lemma Rho_entry_composed (GammaSEXP pSEXP a_rhoSEXP b_rhoSEXP : SEXP) (w : World G) :
  _ReciprocalGraphicalModels_Generate_Rho_c GammaSEXP pSEXP a_rhoSEXP b_rhoSEXP w =
  composed (unbox4 as_mat as_double as_double as_double Generate_Rho_c
              (deref w GammaSEXP) (deref w pSEXP) (deref w a_rhoSEXP) (deref w b_rhoSEXP)) w.
Proof. unfold _ReciprocalGraphicalModels_Generate_Rho_c. run_entry. Qed.

Lemma Psi_entry_composed (PhiSEXP dSEXP a_psiSEXP b_psiSEXP : SEXP) (w : World G) :
  _ReciprocalGraphicalModels_Generate_Psi_c PhiSEXP dSEXP a_psiSEXP b_psiSEXP w =
  composed (unbox4 as_mat as_double as_double as_double Generate_Psi_c
              (deref w PhiSEXP) (deref w dSEXP) (deref w a_psiSEXP) (deref w b_psiSEXP)) w.
Proof. unfold _ReciprocalGraphicalModels_Generate_Psi_c. run_entry. Qed.

Lemma Eta_entry_composed (bSEXP phiSEXP a_etaSEXP b_etaSEXP nu_2SEXP : SEXP) (w : World G) :
  _ReciprocalGraphicalModels_Generate_Eta_c bSEXP phiSEXP a_etaSEXP b_etaSEXP nu_2SEXP w =
  composed (unbox5 as_double as_double as_double as_double as_double Generate_Eta_c
              (deref w bSEXP) (deref w phiSEXP) (deref w a_etaSEXP) (deref w b_etaSEXP)
              (deref w nu_2SEXP)) w.
Proof. unfold _ReciprocalGraphicalModels_Generate_Eta_c. run_entry. Qed.

Lemma Tau_entry_composed (aSEXP gammaSEXP a_tauSEXP b_tauSEXP nu_1SEXP : SEXP) (w : World G) :
  _ReciprocalGraphicalModels_Generate_Tau_c aSEXP gammaSEXP a_tauSEXP b_tauSEXP nu_1SEXP w =
  composed (unbox5 as_double as_double as_double as_double as_double Generate_Tau_c
              (deref w aSEXP) (deref w gammaSEXP) (deref w a_tauSEXP) (deref w b_tauSEXP)
              (deref w nu_1SEXP)) w.
Proof. unfold _ReciprocalGraphicalModels_Generate_Tau_c. run_entry. Qed.

(** The host's dispatch on the registered table is the table of compositions. *)
Lemma dotCall_exported (dll : DllInfo) (nm : string) (args : list SEXP) (w : World G) :
  dotCall (R_init_ReciprocalGraphicalModels dll) nm args w =
  option_map (fun u => composed u w) (exported nm (map (deref w) args)).
Proof.
  unfold dotCall, R_init_ReciprocalGraphicalModels, R_useDynamicSymbols,
    R_registerRoutines, CallEntries.
  cbn [CallRoutines find name].
  destruct (String.eqb "_ReciprocalGraphicalModels_Generate_Rho_c" nm) eqn:ERho;
    [ apply String.eqb_eq in ERho; subst nm
    | destruct (String.eqb "_ReciprocalGraphicalModels_Generate_Psi_c" nm) eqn:EPsi;
      [ apply String.eqb_eq in EPsi; subst nm
      | destruct (String.eqb "_ReciprocalGraphicalModels_Generate_Eta_c" nm) eqn:EEta;
        [ apply String.eqb_eq in EEta; subst nm
        | destruct (String.eqb "_ReciprocalGraphicalModels_Generate_Tau_c" nm) eqn:ETau;
          [ apply String.eqb_eq in ETau; subst nm | ] ] ] ];
    destruct args as [|a1 [|a2 [|a3 [|a4 [|a5 [|a6 args]]]]]];
    cbn [numArgs fun_ List.length Nat.eqb invoke option_map map exported];
    rewrite ?ERho, ?EPsi, ?EEta, ?ETau;
    try reflexivity; cbn [String.eqb Ascii.eqb Bool.eqb option_map]; f_equal.
  - apply Rho_entry_composed.
  - apply Psi_entry_composed.
  - apply Eta_entry_composed.
  - apply Tau_entry_composed.
Qed.

End EntryPointFacts.

Section CallFacts.
Context {G : Type} {M : Marshalling} {N : Native G}.

Lemma deref_fresh (h : list RObject) (o : RObject) :
  nth (List.length h) (h ++ [o]) R_NilValue = o.
Proof. apply nth_middle. Qed.

Lemma deref_live (h l : list RObject) (s : SEXP) :
  s < List.length h -> nth s (h ++ l) R_NilValue = nth s h R_NilValue.
Proof. intros Hs. apply app_nth1. exact Hs. Qed.

(** The heap after a composed call: the heap before, and the boxed result
    after it when the call returns. *)
Lemma composed_heap (u : exception + (G -> native_result G)) (w : World G) :
  heap (snd (composed u w)) =
  heap w ++ match fst (composed u w) with
            | inr s => [deref (snd (composed u w)) s]
            | inl _ => []
            end.
Proof.
  unfold composed. destruct u as [e|f]; cbn.
  - symmetry. apply app_nil_r.
  - destruct (f (Random_seed w)) as [[e|x] g]; cbn.
    + symmetry. apply app_nil_r.
    + unfold deref. cbn. rewrite deref_fresh. reflexivity.
Qed.

(** C10. Each exported entry point is the composition of argument unboxing,
    the native routine applied to the unboxed arguments in their declared
    order, and boxing of its result, inside the generator scope and the
    exception barrier; [R_init_ReciprocalGraphicalModels] registers exactly
    these four routines, with 4, 4, 5 and 5 arguments, and a [.Call] through
    the table runs the composition of that name and argument count. *)
Theorem entry_points_marshal_only :
  (forall (GammaSEXP pSEXP a_rhoSEXP b_rhoSEXP : SEXP) (w : World G),
     _ReciprocalGraphicalModels_Generate_Rho_c GammaSEXP pSEXP a_rhoSEXP b_rhoSEXP w =
     composed (unbox4 as_mat as_double as_double as_double Generate_Rho_c
                 (deref w GammaSEXP) (deref w pSEXP) (deref w a_rhoSEXP)
                 (deref w b_rhoSEXP)) w)
  /\ (forall (PhiSEXP dSEXP a_psiSEXP b_psiSEXP : SEXP) (w : World G),
     _ReciprocalGraphicalModels_Generate_Psi_c PhiSEXP dSEXP a_psiSEXP b_psiSEXP w =
     composed (unbox4 as_mat as_double as_double as_double Generate_Psi_c
                 (deref w PhiSEXP) (deref w dSEXP) (deref w a_psiSEXP)
                 (deref w b_psiSEXP)) w)
  /\ (forall (bSEXP phiSEXP a_etaSEXP b_etaSEXP nu_2SEXP : SEXP) (w : World G),
     _ReciprocalGraphicalModels_Generate_Eta_c bSEXP phiSEXP a_etaSEXP b_etaSEXP nu_2SEXP w =
     composed (unbox5 as_double as_double as_double as_double as_double Generate_Eta_c
                 (deref w bSEXP) (deref w phiSEXP) (deref w a_etaSEXP)
                 (deref w b_etaSEXP) (deref w nu_2SEXP)) w)
  /\ (forall (aSEXP gammaSEXP a_tauSEXP b_tauSEXP nu_1SEXP : SEXP) (w : World G),
     _ReciprocalGraphicalModels_Generate_Tau_c aSEXP gammaSEXP a_tauSEXP b_tauSEXP nu_1SEXP w =
     composed (unbox5 as_double as_double as_double as_double as_double Generate_Tau_c
                 (deref w aSEXP) (deref w gammaSEXP) (deref w a_tauSEXP)
                 (deref w b_tauSEXP) (deref w nu_1SEXP)) w)
  /\ (forall dll : DllInfo,
     CallRoutines (R_init_ReciprocalGraphicalModels dll) =
     [ mkCallMethodDef "_ReciprocalGraphicalModels_Generate_Rho_c"
         (DL_FUNC_4 _ReciprocalGraphicalModels_Generate_Rho_c) 4;
       mkCallMethodDef "_ReciprocalGraphicalModels_Generate_Psi_c"
         (DL_FUNC_4 _ReciprocalGraphicalModels_Generate_Psi_c) 4;
       mkCallMethodDef "_ReciprocalGraphicalModels_Generate_Eta_c"
         (DL_FUNC_5 _ReciprocalGraphicalModels_Generate_Eta_c) 5;
       mkCallMethodDef "_ReciprocalGraphicalModels_Generate_Tau_c"
         (DL_FUNC_5 _ReciprocalGraphicalModels_Generate_Tau_c) 5 ])
  /\ (forall (dll : DllInfo) (nm : string) (args : list SEXP) (w : World G),
     dotCall (R_init_ReciprocalGraphicalModels dll) nm args w =
     option_map (fun u => composed u w) (exported nm (map (deref w) args))).
Proof.
  repeat split.
  - apply Rho_entry_composed.
  - apply Psi_entry_composed.
  - apply Eta_entry_composed.
  - apply Tau_entry_composed.
  - apply dotCall_exported.
Qed.

(** C7. In every call of an exported routine, an exception thrown by an
    argument conversion or by the native routine (so each of
    InvalidHyperparameter, NumericalDegeneracy and DimensionMismatch) reaches
    the host as the error carrying that exception, and a value is returned only
    when the native routine returned one, which the value boxes. *)
Theorem failures_reach_the_caller (dll : DllInfo) (nm : string) (args : list SEXP)
  (w w' : World G) (r : condition + SEXP) :
  dotCall (R_init_ReciprocalGraphicalModels dll) nm args w = Some (r, w') ->
  exists u, exported nm (map (deref w) args) = Some u
    /\ (forall e, attempt u (Random_seed w) = inl e -> r = inl (r_condition e))
    /\ (forall f, attempt u (Random_seed w) = inl (sampler_failure f) ->
          forall s, r <> inr s)
    /\ (forall s, r = inr s ->
          exists x, attempt u (Random_seed w) = inr x /\ deref w' s = wrap x).
Proof.
  rewrite dotCall_exported.
  destruct (exported nm (map (deref w) args)) as [u|]; [|discriminate].
  cbn [option_map]. intros H. injection H as H. exists u. split; [reflexivity|].
  unfold composed in H. unfold attempt.
  destruct u as [e0|f].
  - injection H as Hr Hw. subst r w'. repeat split.
    + intros e He. injection He as He. subst e0. reflexivity.
    + intros f Hf s Hs. discriminate Hs.
    + intros s Hs. discriminate Hs.
  - destruct (f (Random_seed w)) as [[e0|x] g]; cbn [fst];
      injection H as Hr Hw; subst r w'; repeat split.
    + intros e He. injection He as He. subst e0. reflexivity.
    + intros f0 Hf s Hs. discriminate Hs.
    + intros s Hs. discriminate Hs.
    + intros e He. discriminate He.
    + intros f0 Hf. discriminate Hf.
    + intros s Hs. injection Hs as Hs. subst s. exists x. split; [reflexivity|].
      unfold deref. cbn [heap]. apply deref_fresh.
Qed.

(** C5. Two calls of an exported routine with the same arguments (the same
    objects behind the argument addresses) and the same host generator state
    give the host the same result, error or returned object, and leave it the
    same generator state, whatever else differs between the two worlds. *)
Theorem same_inputs_same_outputs (dll : DllInfo) (nm : string) (args : list SEXP)
  (w1 w2 : World G) :
  Random_seed w1 = Random_seed w2 ->
  map (deref w1) args = map (deref w2) args ->
  observation (dotCall (R_init_ReciprocalGraphicalModels dll) nm args w1) =
  observation (dotCall (R_init_ReciprocalGraphicalModels dll) nm args w2).
Proof.
  intros Hseed Hargs. rewrite !dotCall_exported, Hargs.
  destruct (exported nm (map (deref w2) args)) as [u|]; [|reflexivity].
  cbn [option_map]. unfold composed. rewrite Hseed.
  destruct u as [e|f]; cbn [observation Random_seed]; [reflexivity|].
  destruct (f (Random_seed w2)) as [[e|x] g]; cbn [observation Random_seed];
    [reflexivity|].
  unfold deref. cbn [heap]. rewrite !deref_fresh. reflexivity.
Qed.

(** C8. A call of an exported routine leaves every object of the host's heap
    as it was, so the matrix argument and every scalar argument have the same
    value after the call as before it. *)
Theorem inputs_are_not_mutated (dll : DllInfo) (nm : string) (args : list SEXP)
  (w w' : World G) (r : condition + SEXP) :
  dotCall (R_init_ReciprocalGraphicalModels dll) nm args w = Some (r, w') ->
  (forall s, s < List.length (heap w) -> deref w' s = deref w s)
  /\ (Forall (fun s => s < List.length (heap w)) args ->
      map (deref w') args = map (deref w) args).
Proof.
  rewrite dotCall_exported.
  destruct (exported nm (map (deref w) args)) as [u|]; [|discriminate].
  cbn [option_map]. intros H. injection H as H.
  assert (Hlive : forall s, s < List.length (heap w) -> deref w' s = deref w s).
  { intros s Hs. unfold deref at 1.
    replace w' with (snd (composed u w)) by (rewrite H; reflexivity).
    rewrite composed_heap. apply deref_live. exact Hs. }
  split; [exact Hlive|].
  intros Hall. apply map_ext_in. intros s Hin.
  apply Hlive. rewrite Forall_forall in Hall. apply Hall. exact Hin.
Qed.

End CallFacts.

(** * Properties of the samplers as the specification describes them *)



Section SamplerFacts.
Context {G : Type} {E : EntropySource G} {P : Posterior}.
Import SpecModel.

Lemma draw_from_value (post : failure + distribution) (g g' : G) (x : double) :
  draw_from post g = (inr x, g') ->
  exists d, post = inr d /\ sample d g = (x, g').
Proof.
  unfold draw_from. destruct post as [f|d]; [discriminate|].
  destruct (sample d g) as [y h] eqn:Hs. intros H. injection H as Hx Hg.
  subst y h. exists d. split; [reflexivity|exact Hs].
Qed.

Lemma draw_from_failure (f : failure) (g : G) :
  draw_from (inl f) g = (inl (sampler_failure f), g).
Proof. reflexivity. Qed.

Lemma count_posterior_value (X : mat) (dim a b : double) (d : distribution) :
  count_posterior X dim a b = inr d ->
  d = Beta (a + edge_count X)%float (b + (dim * (dim - 1) - edge_count X))%float
  /\ well_formed d = true.
Proof.
  unfold count_posterior.
  destruct (degenerate a || degenerate b); [discriminate|].
  destruct (negb (consistent X dim)); [discriminate|].
  cbv zeta.
  destruct (well_formed (Beta _ _)) eqn:Hwf; [|discriminate].
  intros H. injection H as H. subst d. split; [reflexivity|exact Hwf].
Qed.

Lemma draw_scale_from_value (post : failure + distribution) (g g' : G) (x : double) :
  draw_scale_from post g = (inr x, g') ->
  exists y, draw_from post g = (inr y, g').
Proof.
  unfold draw_scale_from. destruct (draw_from post g) as [[e|y] h]; [discriminate|].
  intros H. injection H as _ Hg. subst h. exists y. reflexivity.
Qed.

Lemma count_posterior_invalid (X : mat) (dim a b : double) :
  degenerate a = true \/ degenerate b = true ->
  count_posterior X dim a b = inl InvalidHyperparameter.
Proof.
  intros H. unfold count_posterior.
  replace (degenerate a || degenerate b) with true; [reflexivity|].
  symmetry. apply orb_true_iff. exact H.
Qed.

Lemma scale_posterior_invalid (shape rate a b : double) :
  degenerate a = true \/ degenerate b = true ->
  scale_posterior shape rate a b = inl InvalidHyperparameter.
Proof.
  intros H. unfold scale_posterior.
  replace (degenerate a || degenerate b) with true; [reflexivity|].
  symmetry. apply orb_true_iff. exact H.
Qed.

(** C1. For strictly positive [a_rho], [b_rho] (resp. [a_psi], [b_psi]) and
    every matrix, a value returned by [Generate_Rho_c] (resp.
    [Generate_Psi_c]) lies in the interval [[0,1]]. *)
Theorem probability_in_unit_interval (X : mat) (dim a b : double) (g g' : G)
  (x : double) :
  (0 <? a)%float = true -> (0 <? b)%float = true ->
  Generate_Rho_c X dim a b g = (inr x, g') \/ Generate_Psi_c X dim a b g = (inr x, g') ->
  (0 <=? x)%float = true /\ (x <=? 1)%float = true.
Proof.
  intros _ _ H.
  assert (Hd : draw_from (count_posterior X dim a b) g = (inr x, g'))
    by (destruct H as [H|H]; exact H).
  apply draw_from_value in Hd. destruct Hd as (d & Hpost & Hs).
  apply count_posterior_value in Hpost. destruct Hpost as [Hd Hwf].
  subst d. pose proof (sample_beta_unit _ _ g Hwf) as Hsup.
  rewrite Hs in Hsup. cbn [fst] in Hsup.
  unfold in_unit in Hsup. apply andb_true_iff in Hsup. exact Hsup.
Qed.


(** C4. When a shape or rate hyperparameter ([a_rho], [b_rho]; [a_psi],
    [b_psi]; [a_eta], [b_eta]; [a_tau], [b_tau]) is zero, negative or
    non-finite, each sampler fails with InvalidHyperparameter, returns no
    sample and draws nothing. *)
Theorem invalid_hyperparameter_fails (a b : double) :
  degenerate a = true \/ degenerate b = true ->
  (forall X dim g, Generate_Rho_c X dim a b g = (inl (sampler_failure InvalidHyperparameter), g))
  /\ (forall X dim g, Generate_Psi_c X dim a b g = (inl (sampler_failure InvalidHyperparameter), g))
  /\ (forall c s nu g, Generate_Eta_c c s a b nu g = (inl (sampler_failure InvalidHyperparameter), g))
  /\ (forall c s nu g, Generate_Tau_c c s a b nu g = (inl (sampler_failure InvalidHyperparameter), g)).
Proof.
  intros H. repeat split; intros.
  - unfold Generate_Rho_c, Rho_posterior. rewrite (count_posterior_invalid _ _ _ _ H).
    reflexivity.
  - unfold Generate_Psi_c, Psi_posterior. rewrite (count_posterior_invalid _ _ _ _ H).
    reflexivity.
  - unfold Generate_Eta_c, Eta_posterior, draw_scale_from.
    rewrite (scale_posterior_invalid _ _ _ _ H). reflexivity.
  - unfold Generate_Tau_c, Tau_posterior, draw_scale_from.
    rewrite (scale_posterior_invalid _ _ _ _ H). reflexivity.
Qed.

End SamplerFacts.

Section DrawCount.
Context {G : Type} {M : Marshalling} {E : EntropySource G} {P : Posterior}.

(** A routine exported over the specification's samplers draws from a
    posterior, or fails before drawing. *)
Lemma exported_draws_from (nm : string) (objs : list RObject)
  (f : G -> native_result G) :
  exported (N := SpecModel.native) nm objs = Some (inr f) ->
  exists post, (forall g, f g = SpecModel.draw_from post g)
               \/ (forall g, f g = SpecModel.draw_scale_from post g).
Proof.
  unfold exported.
  destruct objs as [|o1 [|o2 [|o3 [|o4 [|o5 [|o6 objs]]]]]]; try discriminate.
  - destruct (String.eqb "_ReciprocalGraphicalModels_Generate_Rho_c" nm);
      [|destruct (String.eqb "_ReciprocalGraphicalModels_Generate_Psi_c" nm);
        [|discriminate]];
      unfold unbox4;
      destruct (as_mat o1); try discriminate;
      destruct (as_double o2); try discriminate;
      destruct (as_double o3); try discriminate;
      destruct (as_double o4); try discriminate;
      intros H; injection H as H; subst f; eexists; left; intros g; reflexivity.
  - destruct (String.eqb "_ReciprocalGraphicalModels_Generate_Eta_c" nm);
      [|destruct (String.eqb "_ReciprocalGraphicalModels_Generate_Tau_c" nm);
        [|discriminate]];
      unfold unbox5, unbox4;
      destruct (as_double o1); try discriminate;
      destruct (as_double o2); try discriminate;
      destruct (as_double o3); try discriminate;
      destruct (as_double o4); try discriminate;
      destruct (as_double o5); try discriminate;
      intros H; injection H as H; subst f; eexists; right; intros g; reflexivity.
Qed.

(** C9. A call of an exported routine that returns, the routines being the
    specification's samplers, leaves the host's generator state exactly one
    draw further, the native copy of it in step, and the heap as it was but for
    the fresh object that holds the result. *)
Theorem successful_call_draws_once (dll : DllInfo) (nm : string) (args : list SEXP)
  (w w' : World G) (s : SEXP) :
  dotCall (R_init_ReciprocalGraphicalModels (N := SpecModel.native) dll) nm args w
  = Some (inr s, w') ->
  draws (Random_seed w') = S (draws (Random_seed w))
  /\ rng_state w' = Random_seed w'
  /\ heap w' = heap w ++ [deref w' s].
Proof.
  rewrite dotCall_exported.
  destruct (exported nm (map (deref w) args)) as [[e|f]|] eqn:Hexp;
    cbn [option_map]; try discriminate.
  apply exported_draws_from in Hexp. destruct Hexp as [post Hf].
  unfold composed.
  destruct (f (Random_seed w)) as [[e|x] g] eqn:Hdraw; [discriminate|].
  intros H. injection H as Hs Hw. subst s w'. cbn [Random_seed rng_state heap].
  assert (Hvariate : exists y, SpecModel.draw_from post (Random_seed w) = (inr y, g)).
  { destruct Hf as [Hf|Hf]; rewrite Hf in Hdraw.
    - exists x. exact Hdraw.
    - apply draw_scale_from_value in Hdraw. exact Hdraw. }
  destruct Hvariate as [y Hvariate].
  apply draw_from_value in Hvariate. destruct Hvariate as (d & _ & Hsample).
  pose proof (sample_draws d (Random_seed w)) as Hone.
  rewrite Hsample in Hone. cbn [snd] in Hone.
  repeat split; [exact Hone|].
  unfold deref. cbn [heap]. rewrite deref_fresh. reflexivity.
Qed.

End DrawCount.

(** * The code on concrete inputs *)

Module Runs.
Import Reference.

(** [Generate_Rho_c] on a 2 by 2 empty graph with [a_rho = b_rho = 1]: the
    draw 0.5 lies in the unit interval. *)
Lemma Rho_draw_in_unit_interval_run :
  SpecModel.Generate_Rho_c (E := entropy) (P := posterior) (zeros 2) 2 1 1 0
  = (inr 0.5%float, 1)
  /\ ((0 <=? 0.5)%float = true /\ (0.5 <=? 1)%float = true).
Proof.
  split; [reflexivity|].
  apply (probability_in_unit_interval (E := entropy) (P := posterior)
           (zeros 2) 2 1 1 0 1 0.5);
    [reflexivity | reflexivity | left; reflexivity].
Defined.


(** With [a_rho = 0] the four samplers fail with InvalidHyperparameter. *)
Lemma zero_shape_fails_run :
  SpecModel.Generate_Rho_c (E := entropy) (P := posterior) (zeros 2) 2 0 1 0
  = (inl (sampler_failure InvalidHyperparameter), 0)
  /\ SpecModel.Generate_Eta_c (E := entropy) (P := posterior) 0 1 0 1 1 0
     = (inl (sampler_failure InvalidHyperparameter), 0).
Proof.
  pose proof (invalid_hyperparameter_fails (E := entropy) (P := posterior)
                0 1 (or_introl eq_refl)) as (HRho & _ & HEta & _).
  split; [apply HRho | apply HEta].
Defined.

(** The same call in two worlds that agree on the arguments and on the host's
    generator state: the host sees the same object and generator state. *)
Lemma same_call_two_worlds_run :
  observation (dotCall dll "_ReciprocalGraphicalModels_Generate_Rho_c" [0; 1; 2; 2] world)
  = Some (inr (RNumeric [1%float] None), 8)
  /\ observation (dotCall dll "_ReciprocalGraphicalModels_Generate_Rho_c" [0; 1; 2; 2] world)
     = observation (dotCall dll "_ReciprocalGraphicalModels_Generate_Rho_c" [0; 1; 2; 2]
                      other_world).
Proof.
  split; [reflexivity|].
  apply (same_inputs_same_outputs (N := native) (mkDllInfo [] true)
           "_ReciprocalGraphicalModels_Generate_Rho_c" [0; 1; 2; 2] world other_world);
    reflexivity.
Defined.

(** A call with [a_rho = 0]: the host gets the error that carries
    InvalidHyperparameter. *)
Lemma invalid_call_raises_run :
  exists u,
    exported (N := native) "_ReciprocalGraphicalModels_Generate_Rho_c"
      (map (deref world) [0; 1; 3; 2]) = Some u
    /\ (forall e, attempt u 7 = inl e ->
          @inl condition SEXP (r_condition (sampler_failure InvalidHyperparameter)) = inl (r_condition e))
    /\ (forall f, attempt u 7 = inl (sampler_failure f) ->
          forall s : SEXP,
            @inl condition SEXP (r_condition (sampler_failure InvalidHyperparameter)) <> inr s)
    /\ (forall s : SEXP,
          @inl condition SEXP (r_condition (sampler_failure InvalidHyperparameter)) = inr s ->
          exists x, attempt u 7 = inr x
                    /\ deref (mkWorld (M := marshalling) 7 7 (heap world)) s = wrap x).
Proof.
  apply (failures_reach_the_caller (N := native) (mkDllInfo [] true)
           "_ReciprocalGraphicalModels_Generate_Rho_c" [0; 1; 3; 2] world
           (mkWorld (M := marshalling) 7 7 (heap world))
           (@inl condition SEXP (r_condition (sampler_failure InvalidHyperparameter)))).
  reflexivity.
Defined.

(** A call that returns: the four argument objects are as before. *)
Lemma arguments_unchanged_run :
  map (deref (mkWorld (M := marshalling) 8 8 (heap world ++ [RNumeric [1%float] None])))
      [0; 1; 2; 2]
  = map (deref world) [0; 1; 2; 2].
Proof.
  refine (proj2 (inputs_are_not_mutated (N := native) (mkDllInfo [] true)
                   "_ReciprocalGraphicalModels_Generate_Rho_c" [0; 1; 2; 2] world
                   (mkWorld (M := marshalling) 8 8
                      (heap world ++ [RNumeric [1%float] None]))
                   (inr 4) eq_refl) _).
  repeat constructor.
Defined.

(** A call that returns: the host's generator state goes from 7 to 8 draws. *)
Lemma one_draw_run :
  draws (EntropySource := entropy) 8 = S (draws (EntropySource := entropy) 7)
  /\ 8 = 8
  /\ heap world ++ [RNumeric [1%float] None]
     = heap world ++ [deref (mkWorld (M := marshalling) 8 8
                               (heap world ++ [RNumeric [1%float] None])) 4].
Proof.
  apply (successful_call_draws_once (E := entropy) (P := posterior) (mkDllInfo [] true)
           "_ReciprocalGraphicalModels_Generate_Rho_c" [0; 1; 2; 2] world
           (mkWorld (M := marshalling) 8 8 (heap world ++ [RNumeric [1%float] None]))
           4).
  reflexivity.
Defined.

End Runs.

(** * Further properties of the dispatch and of the entry points *)

Section DispatchFacts.
Context {G : Type} {M : Marshalling} {N : Native G}.

(** The names and argument counts for which [exported] has a routine. *)
Lemma exported_registered (nm : string) (objs : list RObject) :
  exported nm objs <> None <->
  In (nm, List.length objs)
     [ ("_ReciprocalGraphicalModels_Generate_Rho_c"%string, 4);
       ("_ReciprocalGraphicalModels_Generate_Psi_c"%string, 4);
       ("_ReciprocalGraphicalModels_Generate_Eta_c"%string, 5);
       ("_ReciprocalGraphicalModels_Generate_Tau_c"%string, 5) ].
Proof.
  unfold exported. cbn [In].
  destruct (String.eqb_spec "_ReciprocalGraphicalModels_Generate_Rho_c" nm) as [ERho|ERho];
  destruct (String.eqb_spec "_ReciprocalGraphicalModels_Generate_Psi_c" nm) as [EPsi|EPsi];
  destruct (String.eqb_spec "_ReciprocalGraphicalModels_Generate_Eta_c" nm) as [EEta|EEta];
  destruct (String.eqb_spec "_ReciprocalGraphicalModels_Generate_Tau_c" nm) as [ETau|ETau];
  try (subst nm; discriminate);
  destruct objs as [|o1 [|o2 [|o3 [|o4 [|o5 [|o6 objs]]]]]]; cbn [List.length];
  (split;
   [ intros H; try (exfalso; apply H; reflexivity); subst nm; tauto
   | intros H Hnone;
     repeat match type of H with
            | _ \/ _ => destruct H as [H|H]
            end;
     first [ exact H | discriminate Hnone | congruence ] ]).
Qed.

Lemma option_map_none {A B : Type} (f : A -> B) (o : option A) :
  option_map f o <> None <-> o <> None.
Proof. destruct o; cbn; split; intros H; congruence. Qed.

(** Objects that were live before a call are the same after it. *)
Lemma dotCall_live (dll : DllInfo) (nm : string) (args : list SEXP)
  (w w' : World G) (r : condition + SEXP) (s : SEXP) :
  dotCall (R_init_ReciprocalGraphicalModels dll) nm args w = Some (r, w') ->
  s < List.length (heap w) -> deref w' s = deref w s.
Proof.
  rewrite dotCall_exported.
  destruct (exported nm (map (deref w) args)) as [u|]; [|discriminate].
  cbn [option_map]. intros H Hs. injection H as H. unfold deref at 1.
  replace w' with (snd (composed u w)) by (rewrite H; reflexivity).
  rewrite composed_heap. apply deref_live. exact Hs.
Qed.

(** What the host sees of a composed call is decided by the unboxed call and
    the host's generator state. *)
Lemma observation_composed (u : exception + (G -> native_result G)) (w : World G) :
  observation (Some (composed u w)) =
  match u with
  | inl e => Some (inl (r_condition e), Random_seed w)
  | inr f =>
    match f (Random_seed w) with
    | (inl e, g) => Some (inl (r_condition e), g)
    | (inr x, g) => Some (inr (wrap x), g)
    end
  end.
Proof.
  unfold composed. destruct u as [e|f]; [reflexivity|].
  destruct (f (Random_seed w)) as [[e|x] g]; [reflexivity|].
  cbn [observation Random_seed]. unfold deref. cbn [heap].
  rewrite deref_fresh. reflexivity.
Qed.

(** X1. A [.Call] on the loaded library runs a routine exactly for the four
    registered names with the registered number of arguments; any other name,
    and a registered name with another number of arguments, runs nothing. *)
Theorem dotCall_runs_registered_only (dll : DllInfo) (nm : string)
  (args : list SEXP) (w : World G) :
  dotCall (R_init_ReciprocalGraphicalModels dll) nm args w <> None <->
  In (nm, List.length args)
     [ ("_ReciprocalGraphicalModels_Generate_Rho_c"%string, 4);
       ("_ReciprocalGraphicalModels_Generate_Psi_c"%string, 4);
       ("_ReciprocalGraphicalModels_Generate_Eta_c"%string, 5);
       ("_ReciprocalGraphicalModels_Generate_Tau_c"%string, 5) ].
Proof.
  rewrite dotCall_exported, option_map_none, exported_registered, length_map.
  reflexivity.
Qed.

(** X2. Every entry of the registered table can be called under its own name
    with its own number of arguments, and the call runs the routine of that
    entry: no entry is shadowed by another, and no entry's argument count
    disagrees with the routine it points to. *)
Theorem registered_routines_callable (dll : DllInfo) (e : R_CallMethodDef)
  (args : list SEXP) :
  In e (CallRoutines (R_init_ReciprocalGraphicalModels dll)) ->
  List.length args = numArgs e ->
  exists c, invoke (fun_ e) args = Some c
            /\ forall w, dotCall (R_init_ReciprocalGraphicalModels dll) (name e) args w
                         = Some (c w).
Proof.
  unfold R_init_ReciprocalGraphicalModels, R_useDynamicSymbols, R_registerRoutines,
    CallEntries.
  cbn [CallRoutines In].
  intros [H|[H|[H|[H|[]]]]]; subst e; cbn [numArgs fun_ name];
    destruct args as [|a1 [|a2 [|a3 [|a4 [|a5 [|a6 args]]]]]]; try discriminate;
    intros _; eexists; (split; [reflexivity|]); intros w; reflexivity.
Qed.

(** X3. After every call that runs, whether it returns or raises, the native
    copy of the generator state agrees with the host's, and the host's state is
    the one the native routine left when started from the host's state before
    the call (the state before the call when a conversion failed). *)
Theorem generator_written_back (dll : DllInfo) (nm : string) (args : list SEXP)
  (w w' : World G) (r : condition + SEXP) :
  dotCall (R_init_ReciprocalGraphicalModels dll) nm args w = Some (r, w') ->
  rng_state w' = Random_seed w'
  /\ exists u, exported nm (map (deref w) args) = Some u
       /\ Random_seed w' = match u with
                           | inl _ => Random_seed w
                           | inr f => snd (f (Random_seed w))
                           end.
Proof.
  rewrite dotCall_exported.
  destruct (exported nm (map (deref w) args)) as [u|]; [|discriminate].
  cbn [option_map]. intros H. injection H as H. unfold composed in H.
  destruct u as [e|f].
  - injection H as _ Hw. subst w'. split; [reflexivity|].
    eexists. split; reflexivity.
  - destruct (f (Random_seed w)) as [[e|x] g] eqn:Hf; injection H as _ Hw; subst w';
      (split; [reflexivity|]); eexists; (split; [reflexivity|]);
      cbn [Random_seed]; rewrite Hf; reflexivity.
Qed.

(** X5. The address a call returns is that of a new object: it was not live
    before the call, it is live after it, and the heap has grown by exactly
    that one object. *)
Theorem returned_object_is_fresh (dll : DllInfo) (nm : string) (args : list SEXP)
  (w w' : World G) (s : SEXP) :
  dotCall (R_init_ReciprocalGraphicalModels dll) nm args w = Some (inr s, w') ->
  ~ s < List.length (heap w)
  /\ s < List.length (heap w')
  /\ List.length (heap w') = S (List.length (heap w)).
Proof.
  rewrite dotCall_exported.
  destruct (exported nm (map (deref w) args)) as [u|]; [|discriminate].
  cbn [option_map]. intros H. injection H as H. unfold composed in H.
  destruct u as [e|f]; [discriminate|].
  destruct (f (Random_seed w)) as [[e|x] g]; [discriminate|].
  injection H as Hs Hw. subst s w'. cbn [heap].
  rewrite length_app. cbn [List.length]. lia.
Qed.

(** X6. A call made after another one, on arguments that were live before the
    first, gives the host what it would have given in the world before the
    first call with the generator state the first call left: of an earlier
    call only the generator state reaches a later one. *)
Theorem later_call_sees_only_generator (dll : DllInfo) (nm1 nm2 : string)
  (args1 args2 : list SEXP) (w w1 : World G) (r1 : condition + SEXP) :
  dotCall (R_init_ReciprocalGraphicalModels dll) nm1 args1 w = Some (r1, w1) ->
  Forall (fun s => s < List.length (heap w)) args2 ->
  observation (dotCall (R_init_ReciprocalGraphicalModels dll) nm2 args2 w1) =
  observation (dotCall (R_init_ReciprocalGraphicalModels dll) nm2 args2
                 (mkWorld (Random_seed w1) (rng_state w) (heap w))).
Proof.
  intros Hcall Hlive. rewrite !dotCall_exported.
  assert (Hargs : map (deref w1) args2 =
                  map (deref (mkWorld (Random_seed w1) (rng_state w) (heap w))) args2).
  { apply map_ext_in. intros s Hin. rewrite Forall_forall in Hlive.
    rewrite (dotCall_live dll nm1 args1 w w1 r1 s Hcall (Hlive s Hin)).
    reflexivity. }
  rewrite Hargs.
  destruct (exported nm2 _) as [u|]; [|reflexivity].
  cbn [option_map]. rewrite !observation_composed. reflexivity.
Qed.

End DispatchFacts.

Section NativeNotRun.
Context {G : Type} {M : Marshalling}.

(** A conversion failure is decided before the native routine is looked at. *)
Lemma exported_conversion_failure (N1 N2 : Native G) (nm : string)
  (objs : list RObject) (e : exception) :
  exported (N := N1) nm objs = Some (inl e) ->
  exported (N := N2) nm objs = Some (inl e).
Proof.
  unfold exported.
  destruct objs as [|o1 [|o2 [|o3 [|o4 [|o5 [|o6 objs]]]]]]; try discriminate.
  - destruct (String.eqb "_ReciprocalGraphicalModels_Generate_Rho_c" nm);
      [|destruct (String.eqb "_ReciprocalGraphicalModels_Generate_Psi_c" nm);
        [|discriminate]];
      unfold unbox4;
      destruct (as_mat o1); try (intros H; exact H);
      destruct (as_double o2); try (intros H; exact H);
      destruct (as_double o3); try (intros H; exact H);
      destruct (as_double o4); try (intros H; exact H);
      discriminate.
  - destruct (String.eqb "_ReciprocalGraphicalModels_Generate_Eta_c" nm);
      [|destruct (String.eqb "_ReciprocalGraphicalModels_Generate_Tau_c" nm);
        [|discriminate]];
      unfold unbox5, unbox4;
      destruct (as_double o1); try (intros H; exact H);
      destruct (as_double o2); try (intros H; exact H);
      destruct (as_double o3); try (intros H; exact H);
      destruct (as_double o4); try (intros H; exact H);
      destruct (as_double o5); try (intros H; exact H);
      discriminate.
Qed.

(** X4. When the conversion of an argument fails, the call raises that
    conversion's exception without running the native routine: the outcome is
    the same whatever the native routines are, and the host's generator state
    is the one before the call. *)
Theorem bad_argument_skips_native (N1 N2 : Native G) (dll1 dll2 : DllInfo)
  (nm : string) (args : list SEXP) (w : World G) (e : exception) :
  exported (N := N1) nm (map (deref w) args) = Some (inl e) ->
  dotCall (R_init_ReciprocalGraphicalModels (N := N1) dll1) nm args w =
  dotCall (R_init_ReciprocalGraphicalModels (N := N2) dll2) nm args w
  /\ exists w', dotCall (R_init_ReciprocalGraphicalModels (N := N1) dll1) nm args w
                = Some (inl (r_condition e), w')
                /\ Random_seed w' = Random_seed w.
Proof.
  intros H1. pose proof (exported_conversion_failure N1 N2 _ _ _ H1) as H2.
  rewrite (dotCall_exported (N := N1)), (dotCall_exported (N := N2)), H1, H2.
  cbn [option_map composed]. split; [reflexivity|].
  eexists. split; reflexivity.
Qed.

End NativeNotRun.

Section ReturnFacts.
Context {G : Type} {M : Marshalling} {N : Native G}.

(** X7. An entry point raises nothing of its own: when every argument
    converts and the native routine returns a double, the call returns, and
    the object it returns is that double boxed. *)
Theorem native_value_is_returned (dll : DllInfo) (nm : string) (args : list SEXP)
  (w : World G) (f : G -> native_result G) (x : double) :
  exported nm (map (deref w) args) = Some (inr f) ->
  fst (f (Random_seed w)) = inr x ->
  exists s w', dotCall (R_init_ReciprocalGraphicalModels dll) nm args w = Some (inr s, w')
               /\ deref w' s = wrap x.
Proof.
  intros Hexp Hx. rewrite dotCall_exported, Hexp. cbn [option_map composed].
  destruct (f (Random_seed w)) as [[e|y] g]; cbn [fst] in Hx; [discriminate|].
  injection Hx as Hx. subst y. eexists. eexists. split; [reflexivity|].
  unfold deref. cbn [heap]. apply deref_fresh.
Qed.

End ReturnFacts.

(** * Further runs on concrete inputs *)

Module Checks.
Import Reference.

(** The first entry of the table, called under its name with four arguments. *)
Lemma Rho_entry_callable_run :
  exists c,
    invoke (DL_FUNC_4 (_ReciprocalGraphicalModels_Generate_Rho_c (N := native)))
      [0; 1; 2; 2] = Some c
    /\ forall w, dotCall dll "_ReciprocalGraphicalModels_Generate_Rho_c" [0; 1; 2; 2] w
                 = Some (c w).
Proof.
  apply (registered_routines_callable (N := native) (mkDllInfo [] true)
           (mkCallMethodDef "_ReciprocalGraphicalModels_Generate_Rho_c"
              (DL_FUNC_4 (_ReciprocalGraphicalModels_Generate_Rho_c (N := native))) 4)
           [0; 1; 2; 2]);
    [left; reflexivity | reflexivity].
Defined.

(** A call that returns from a world whose native generator copy was stale:
    both copies hold the state after the draw. *)
Lemma generator_in_step_run :
  rng_state (mkWorld (M := marshalling) 8 8 (heap world ++ [RNumeric [1%float] None]))
  = Random_seed (mkWorld (M := marshalling) 8 8 (heap world ++ [RNumeric [1%float] None]))
  /\ exists u,
       exported (N := native) "_ReciprocalGraphicalModels_Generate_Rho_c"
         (map (deref world) [0; 1; 2; 2]) = Some u
       /\ Random_seed (mkWorld (M := marshalling) 8 8
                         (heap world ++ [RNumeric [1%float] None]))
          = match u with
            | inl _ => Random_seed world
            | inr f => snd (f (Random_seed world))
            end.
Proof.
  apply (generator_written_back (N := native) (mkDllInfo [] true)
           "_ReciprocalGraphicalModels_Generate_Rho_c" [0; 1; 2; 2] world
           (mkWorld (M := marshalling) 8 8 (heap world ++ [RNumeric [1%float] None]))
           (inr 4)).
  reflexivity.
Defined.

(** A scalar where the matrix is expected: the same error with the
    specification's samplers and with [echo], and no draw is made. *)
Lemma scalar_for_matrix_run :
  dotCall (R_init_ReciprocalGraphicalModels (N := native) (mkDllInfo [] true))
    "_ReciprocalGraphicalModels_Generate_Rho_c" [1; 1; 2; 2] world
  = dotCall (R_init_ReciprocalGraphicalModels (N := echo) (mkDllInfo [] false))
      "_ReciprocalGraphicalModels_Generate_Rho_c" [1; 1; 2; 2] world
  /\ exists w',
       dotCall (R_init_ReciprocalGraphicalModels (N := native) (mkDllInfo [] true))
         "_ReciprocalGraphicalModels_Generate_Rho_c" [1; 1; 2; 2] world
       = Some (inl (r_condition (Rcpp_exception "not a matrix")), w')
       /\ Random_seed w' = Random_seed world.
Proof.
  apply (bad_argument_skips_native native echo (mkDllInfo [] true) (mkDllInfo [] false)
           "_ReciprocalGraphicalModels_Generate_Rho_c" [1; 1; 2; 2] world
           (Rcpp_exception "not a matrix")).
  reflexivity.
Defined.

(** A call that returns: address 4 is new. *)
Lemma fresh_result_run :
  ~ 4 < List.length (heap world)
  /\ 4 < List.length (heap world ++ [RNumeric [1%float] None])
  /\ List.length (heap world ++ [RNumeric [1%float] None]) = S (List.length (heap world)).
Proof.
  apply (returned_object_is_fresh (N := native) (mkDllInfo [] true)
           "_ReciprocalGraphicalModels_Generate_Rho_c" [0; 1; 2; 2] world
           (mkWorld (M := marshalling) 8 8 (heap world ++ [RNumeric [1%float] None])) 4).
  reflexivity.
Defined.

(** [Generate_Eta_c] called after [Generate_Rho_c]: the host sees the draw made
    from generator state 8, as in the first world at that state. *)
Lemma second_call_run :
  observation
    (dotCall dll "_ReciprocalGraphicalModels_Generate_Eta_c" [3; 2; 1; 1; 2]
       (mkWorld (M := marshalling) 8 8 (heap world ++ [RNumeric [1%float] None])))
  = observation
      (dotCall dll "_ReciprocalGraphicalModels_Generate_Eta_c" [3; 2; 1; 1; 2]
         (mkWorld (M := marshalling) 8 3 (heap world))).
Proof.
  apply (later_call_sees_only_generator (N := native) (mkDllInfo [] true)
           "_ReciprocalGraphicalModels_Generate_Rho_c"
           "_ReciprocalGraphicalModels_Generate_Eta_c"
           [0; 1; 2; 2] [3; 2; 1; 1; 2] world
           (mkWorld (M := marshalling) 8 8 (heap world ++ [RNumeric [1%float] None]))
           (inr 4)).
  - reflexivity.
  - repeat constructor.
Defined.

(** With [echo] behind the entry point, the call returns the boxed [p]. *)
Lemma echo_returns_run :
  exists s w',
    dotCall (R_init_ReciprocalGraphicalModels (N := echo) (mkDllInfo [] true))
      "_ReciprocalGraphicalModels_Generate_Rho_c" [0; 1; 2; 2] world = Some (inr s, w')
    /\ deref w' s = RNumeric [2%float] None.
Proof.
  apply (native_value_is_returned (N := echo) (mkDllInfo [] true)
           "_ReciprocalGraphicalModels_Generate_Rho_c" [0; 1; 2; 2] world
           (fun g => (inr 2%float, g)) 2);
    reflexivity.
Defined.

End Checks.
